(** * Cloud patches and the patch-details view state of vscode-gitlens

    A shallow embedding of two source units of the repository:

    - [CloudPatchService] (plus/patches/cloudPatchService.ts): the
      publish / fetch protocol against the remote drafts API;
    - [PatchDetailsWebviewProvider]
      (plus/webviews/patchDetails/patchDetailsWebview.ts): the committed
      context, its pending overlay, the debounced notification and the
      details projection.

    The service manipulates untyped JSON ([any]) throughout, so its values
    are modelled as JavaScript values ([jv]) with the property-read
    semantics of the language: reading a property of [undefined] or [null]
    raises a [TypeError], reading a missing property yields [undefined]. *)

From Stdlib Require Import Ascii.
From stdpp Require Import gmap strings list fin_maps pretty.

Set Warnings "-register-all".
Set Default Proof Using "Type".

Local Open Scope string_scope.
Local Open Scope list_scope.

(** ** JavaScript values *)

Module Js.

Inductive jv :=
  | JUndefined
  | JNull
  | JBool (b : bool)
  | JNum (n : Z)
  | JStr (s : string)
  | JDate (src : jv)                      (* new Date(src) *)
  | JArr (xs : list jv)
  | JObj (fields : list (string * jv)).

(** What a rejected promise or a [throw] carries.  Failures raised by the
    collaborators (transport, body parsing, git) are kept apart from the
    errors the modelled code raises itself. *)
Inductive exn :=
  | TypeError
  | Error (message : string)
  | NetworkError                          (* fetch rejected *)
  | SyntaxError                           (* response.json() / text() rejected *)
  | Rejected (reason : string).           (* a git collaborator rejected *)

Definition throws (A : Type) : Type := (exn + A)%type.

Definition throw {A} (e : exn) : throws A := inl e.

#[global] Instance throws_ret : MRet throws := fun A x => inr x.
#[global] Instance throws_bind : MBind throws := fun A B f m =>
  match m with inl e => inl e | inr x => f x end.
#[global] Instance throws_fmap : FMap throws := fun A B f m =>
  match m with inl e => inl e | inr x => inr (f x) end.

(** [v == null] *)
Definition nullish (v : jv) : bool :=
  match v with JUndefined | JNull => true | _ => false end.

(** [a ?? b] *)
Definition coalesce (a b : jv) : jv := if nullish a then b else a.

Definition digit (c : ascii) : option nat :=
  let n := nat_of_ascii c in
  if (48 <=? n)%nat && (n <=? 57)%nat then Some (n - 48)%nat else None.

Fixpoint digits (s : string) (acc : nat) : option nat :=
  match s with
  | EmptyString => Some acc
  | String c r =>
      match digit c with
      | Some d => digits r (10 * acc + d)%nat
      | None => None
      end
  end.

(** A property key that is a canonical array index: ["0"], ["17"], but
    neither [""] nor ["007"]. *)
Definition parse_index (k : string) : option nat :=
  match k with
  | EmptyString => None
  | String "0"%char EmptyString => Some 0%nat
  | String "0"%char _ => None
  | _ => digits k 0
  end.

Fixpoint nth_char (s : string) (i : nat) : option string :=
  match s, i with
  | EmptyString, _ => None
  | String c _, O => Some (String c EmptyString)
  | String _ r, S j => nth_char r j
  end.

(** The own property [k] of an object literal given by its fields. *)
Fixpoint field (k : string) (fields : list (string * jv)) : option jv :=
  match fields with
  | [] => None
  | (k', v) :: rest => if decide (k' = k) then Some v else field k rest
  end.

(** [{ ...fields, k: v }]: an existing key keeps its place. *)
Fixpoint set_field (k : string) (v : jv) (fields : list (string * jv))
  : list (string * jv) :=
  match fields with
  | [] => [(k, v)]
  | (k', v') :: rest =>
      if decide (k' = k) then (k, v) :: rest else (k', v') :: set_field k v rest
  end.

(** Reading [v[k]] of a value that is neither [undefined] nor [null]. *)
Definition read (v : jv) (k : string) : jv :=
  match v with
  | JObj fields => default JUndefined (field k fields)
  | JArr xs =>
      match parse_index k with
      | Some i => default JUndefined (xs !! i)
      | None => if decide (k = "length") then JNum (Z.of_nat (length xs)) else JUndefined
      end
  | JStr s =>
      match parse_index k with
      | Some i => from_option JStr JUndefined (nth_char s i)
      | None =>
          if decide (k = "length") then JNum (Z.of_nat (String.length s)) else JUndefined
      end
  | _ => JUndefined
  end.

(** [v.k] and [v[k]] *)
Definition prop (v : jv) (k : string) : throws jv :=
  if nullish v then throw TypeError else mret (read v k).

(** [v?.k] and [v?.[k]] *)
Definition opt_prop (v : jv) (k : string) : jv :=
  if nullish v then JUndefined else read v k.

(** The string a template literal interpolates for a value. *)
Fixpoint to_str (v : jv) : string :=
  match v with
  | JUndefined => "undefined"
  | JNull => "null"
  | JBool true => "true"
  | JBool false => "false"
  | JNum n => pretty n
  | JStr s => s
  | JDate _ => "[object Date]"
  | JArr xs =>
      (fix join (l : list jv) : string :=
         match l with
         | [] => ""
         | [x] => if nullish x then "" else to_str x
         | x :: r => (if nullish x then "" else to_str x) +:+ "," +:+ join r
         end) xs
  | JObj _ => "[object Object]"
  end.

(** [xs.map(f)] for a callback that may throw; anything but an array has no
    [map] method, so the call raises a [TypeError]. *)
Definition js_map (f : jv → throws jv) (v : jv) : throws jv :=
  match v with
  | JArr xs => JArr <$> mapM (M := throws) f xs
  | _ => throw TypeError
  end.

(** [s.split(sep)] for a one-character separator. *)
Fixpoint split_on (sep : ascii) (s : string) (cur : string) : list string :=
  match s with
  | EmptyString => [cur]
  | String c r =>
      if decide (c = sep) then cur :: split_on sep r ""
      else split_on sep r (cur +:+ String c EmptyString)
  end.

Definition js_split (sep : ascii) (s : string) : jv :=
  JArr (JStr <$> split_on sep s "").

(** A promise handed out by a collaborator: its value, or the reason
    it rejects with. *)
Definition promise (A : Type) : Type := (string + A)%type.

Definition await {A} (p : promise A) : throws A :=
  match p with inl reason => inl (Rejected reason) | inr x => inr x end.

End Js.

Import Js.

(** ** The cloud patch service *)

Module CloudPatchService.

(** [this.connection.fetch] or node-fetch's [fetch]. *)
Inductive channel := Connection | NodeFetch.

Inductive payload :=
  | Stringified (v : jv)                  (* JSON.stringify(v) *)
  | Text (s : string).

Record request := Request {
  via : channel;
  url : jv;
  method : jv;
  headers : list (string * jv);
  body : option payload;
}.

(** What the two body readers of a response give; [None] when the reader
    rejects. *)
Record response := Response {
  json : option jv;
  text : option string;
}.

(** The service monad: a computation appends the requests it issues to the
    log and either returns or rejects. *)
Definition Svc (A : Type) : Type := list request → throws A * list request.

#[global] Instance svc_ret : MRet Svc := fun A x log => (inr x, log).
#[global] Instance svc_bind : MBind Svc := fun A B f m log =>
  match m log with
  | (inl e, log') => (inl e, log')
  | (inr x, log') => f x log'
  end.

Definition lift {A} (m : throws A) : Svc A := fun log => (m, log).

(** [Promise.allSettled] *)
Inductive settled (A : Type) :=
  | Fulfilled (value : A)
  | NotFulfilled (reason : exn).
Arguments Fulfilled {A} value.
Arguments NotFulfilled {A} reason.

Definition settle {A} (m : throws A) : settled A :=
  match m with inr x => Fulfilled x | inl e => NotFulfilled e end.

Definition allSettled3 {A B C} (a : throws A) (b : throws B) (c : throws C)
  : settled A * settled B * settled C := (settle a, settle b, settle c).

Fixpoint allSettled {A} (ps : list (Svc A)) : Svc (list (settled A)) :=
  match ps with
  | [] => mret []
  | p :: rest => fun log =>
      let '(r, log') := p log in
      match allSettled rest log' with
      | (inr rs, log'') => (inr (settle r :: rs), log'')
      | (inl e, log'') => (inl e, log'')
      end
  end.

(** Modelled from the spec: [getSettledValue] of system/promise, which is
    not among the sources; a settled result gives its value when fulfilled
    and [undefined] otherwise (collect-all-settled semantics). *)
Definition getSettledValue {A} (r : settled A) : option A :=
  match r with Fulfilled v => Some v | NotFulfilled _ => None end.

Definition settledValue (r : settled jv) : jv :=
  default JUndefined (getSettledValue r).

(** The git collaborators, at their interface. *)
Record GitProvider := {
  provider_id : string;
  provider_path : string;
  provider_owner : string;
}.
Record GitRemote := { provider : option GitProvider }.
Record GitUser := { user_name : option string; user_email : option string }.
Record GitBranch := { branch_name : string }.

Record Repository := {
  repo_uri : string;
  repo_path : string;
  getBranch : promise (option GitBranch);
}.
Record GitService := {
  getBestRemoteWithProvider : string → promise (option GitRemote);
  getCurrentUser : string → promise (option GitUser);
  getUniqueRepositoryId : string → promise (option string);
}.

(** [Uri.joinPath(base, path).toString()] *)
Definition joinPath (base path : string) : string :=
  base +:+ "/" +:+
  match path with String "/"%char rest => rest | _ => path end.

(** [{ ...v }] *)
Definition spread (v : jv) : list (string * jv) :=
  match v with JObj fields => fields | _ => [] end.

(** [headers?.['Host']?.['0'] ?? ''] *)
Definition hostHeader (headers : jv) : jv :=
  coalesce (opt_prop (opt_prop headers "Host") "0") (JStr "").

(** The [gitRepoData] literal of [create]:
    [{ ...(sha != null && sha != '-' && { initialCommitSha: sha }) }] *)
Definition gitRepoData (repoFirstCommitSha : option string) : jv :=
  JObj (if bool_decide (repoFirstCommitSha ≠ None)
           && bool_decide (repoFirstCommitSha ≠ Some "-")
        then [("initialCommitSha", from_option JStr JUndefined repoFirstCommitSha)]
        else []).

(** Lines 896-903 of [create]: what is made of the three settled
    resolutions. *)
Definition resolveAncillary
    (remoteResult : settled (option GitRemote))
    (userResult : settled (option GitUser))
    (branchResult : settled (option GitBranch))
  : throws (GitProvider * string * string) :=
  let remote := mjoin (getSettledValue remoteResult) in
  match remote ≫= provider with
  | None => throw (Error "No Git provider found")
  | Some remote_provider =>
      let user := mjoin (getSettledValue userResult) in
      let gitProfileId :=
        default "" (match user ≫= user_email with
                    | Some e => Some e
                    | None => user ≫= user_name
                    end) in
      let branch := mjoin (getSettledValue branchResult) in
      let branchName := default "" (branch_name <$> branch) in
      mret (remote_provider, gitProfileId, branchName)
  end.

Section service.

Context (baseGkApiUri : string).
(** The transport: the response to the last request of the log, given
    all requests issued so far; [None] when the fetch rejects. *)
Context (net : list request → option response).
Context (git : GitService).

Definition fetch (ch : channel) (u m : jv) (hs : list (string * jv))
    (b : option payload) : Svc response := fun log =>
  let log' := (log ++ [Request ch u m hs b]) in
  (match net log' with Some r => inr r | None => inl NetworkError end, log').

Definition json_of (r : response) : Svc jv :=
  lift (match json r with Some v => inr v | None => inl SyntaxError end).

Definition text_of (r : response) : Svc jv :=
  lift (match text r with Some s => inr (JStr s) | None => inl SyntaxError end).

Definition api (path : string) : jv := JStr (joinPath baseGkApiUri path).

Definition getChangesets (id : jv) : Svc jv :=
  changesetsResponse ←
    fetch Connection (api ("/v1/drafts/" +:+ to_str id +:+ "/changesets"))
      (JStr "GET") [] None;
  j ← json_of changesetsResponse;
  changesetsData ← lift (prop j "data");
  lift (js_map (fun changesetData =>
    id' ← prop changesetData "id";
    createdAt ← prop changesetData "createdAt";
    updatedAt ← prop changesetData "updatedAt";
    draftId ← prop changesetData "draftId";
    gitProfileId ← prop changesetData "gitProfileId";
    parentChangesetId ← prop changesetData "parentChangesetId";
    patches ← prop changesetData "patches";
    mret (JObj [("id", id');
                ("createdAt", JDate createdAt);
                ("updatedAt", JDate updatedAt);
                ("draftId", draftId);
                ("gitProfileId", gitProfileId);
                ("parentChangesetId", parentChangesetId);
                ("patches", patches)])) changesetsData).

Definition get (id : jv) : Svc jv :=
  draftResponse ←
    fetch Connection (api ("v1/drafts/" +:+ to_str id)) (JStr "GET") [] None;
  j ← json_of draftResponse;
  draftData ← lift (prop j "data");
  changeSets ← getChangesets id;
  d_id ← lift (prop draftData "id");
  d_deepLink ← lift (prop draftData "deepLink");
  d_title ← lift (prop draftData "title");
  d_description ← lift (prop draftData "description");
  d_createdAt ← lift (prop draftData "createdAt");
  d_updatedAt ← lift (prop draftData "updatedAt");
  d_createdBy ← lift (prop draftData "createdBy");
  d_isPublic ← lift (prop draftData "isPublic");
  d_organizationId ← lift (prop draftData "organizationId");
  mret (JObj [("type", JStr "cloud");
              ("id", d_id);
              ("linkUrl", d_deepLink);
              ("title", d_title);
              ("description", d_description);
              ("createdAt", JDate d_createdAt);
              ("updatedAt", JDate d_updatedAt);
              ("createdBy", d_createdBy);
              ("isPublic", d_isPublic);
              ("organizationId", d_organizationId);
              ("changesets", coalesce changeSets (JArr []))]).

(** The callback of [patchesData.map] in [getPatches]; [includeContents]
    stands for [options?.includeContents] being truthy. *)
Definition getPatches_item (includeContents : bool) (patchData : jv)
  : Svc jv :=
  draftId ← lift (prop patchData "draftId");
  gitProfileId ← lift (prop patchData "gitProfileId");
  gitRepositoryName ← lift (prop patchData "gitRepositoryName");
  gitBranchName ← lift (prop patchData "gitBranchName");
  secureDownloadData ← lift (prop patchData "secureDownloadData");
  u ← lift (prop secureDownloadData "url");
  m ← lift (prop secureDownloadData "method");
  hs ← lift (prop secureDownloadData "headers");
  contents ←
    (if includeContents then
       patchDownloadResponse ←
         fetch Connection u m
           [("Accept", JStr "text/plain"); ("Host", hostHeader hs)] None;
       text_of patchDownloadResponse
     else mret (JStr ""));
  p_id ← lift (prop patchData "id");
  mret (JObj [("id", p_id);
              ("draftId", draftId);
              ("gitProfileId", gitProfileId);
              ("gitRepositoryName", gitRepositoryName);
              ("gitBranchName", gitBranchName);
              ("contents", contents)]).

Definition getPatches (id : jv) (includeContents : bool) : Svc jv :=
  patchesResponse ←
    fetch Connection (api ("/v1/drafts/" +:+ to_str id +:+ "/patches"))
      (JStr "GET") [] None;
  j ← json_of patchesResponse;
  patchesData ← lift (prop j "data");
  promises ← lift (match patchesData with
                   | JArr rows => mret (getPatches_item includeContents <$> rows)
                   | _ => throw TypeError
                   end);
  patches ← allSettled promises;
  mret (JArr (settledValue <$> patches)).

Definition getPatch (id : jv) : Svc jv :=
  patchResponse ←
    fetch Connection (api ("/v1/patches/" +:+ to_str id)) (JStr "GET") [] None;
  j ← json_of patchResponse;
  patchData ← lift (prop j "data");
  draftId ← lift (prop patchData "draftId");
  gitProfileId ← lift (prop patchData "gitProfileId");
  gitRepositoryName ← lift (prop patchData "gitRepositoryName");
  gitBranchName ← lift (prop patchData "gitBranchName");
  secureDownloadData ← lift (prop patchData "secureDownloadData");
  u ← lift (prop secureDownloadData "url");
  m ← lift (prop secureDownloadData "method");
  hs ← lift (prop secureDownloadData "headers");
  patchDownloadResponse ←
    fetch NodeFetch u m
      [("Accept", JStr "text/plain"); ("Host", hostHeader hs)] None;
  contents ← text_of patchDownloadResponse;
  mret (JObj [("id", id);
              ("draftId", draftId);
              ("gitProfileId", gitProfileId);
              ("gitRepositoryName", gitRepositoryName);
              ("gitBranchName", gitBranchName);
              ("contents", contents)]).

Definition getPatchContents (id : jv) : Svc jv :=
  patchResponse ←
    fetch Connection (api ("/v1/patches/" +:+ to_str id)) (JStr "GET") [] None;
  j ← json_of patchResponse;
  patchData ← lift (prop j "data");
  secureDownloadData ← lift (prop patchData "secureDownloadData");
  u ← lift (prop secureDownloadData "url");
  m ← lift (prop secureDownloadData "method");
  hs ← lift (prop secureDownloadData "headers");
  patchDownloadResponse ←
    fetch NodeFetch u m
      [("Accept", JStr "text/plain"); ("Host", hostHeader hs)] None;
  text_of patchDownloadResponse.

(** The body of the changeset-creation request of [create]. *)
Definition changesetBody (gitProfileId baseSha branchName : string)
    (repoFirstCommitSha : option string) : jv :=
  JObj [("gitProfileId", JStr gitProfileId);
        ("patches", JArr [
            JObj [("baseCommitSha", JStr baseSha);
                  ("baseBranchName", JStr branchName);
                  ("gitRepoData", gitRepoData repoFirstCommitSha)] ])].

(** Lines 905-977 of [create]: the publication once the provider, the
    profile id and the branch name are known. *)
Definition publish (repository : Repository) (baseSha contents : string)
    (remote_provider : GitProvider) (gitProfileId branchName : string)
  : Svc jv :=
  draftResponse ← fetch Connection (api "v1/drafts") (JStr "POST") [] None;
  j ← json_of draftResponse;
  draftData ← lift (prop j "data");
  draftId ← lift (prop draftData "id");
  newDraft ← get draftId;
  if nullish newDraft then mret JUndefined else
  repoFirstCommitSha ←
    lift (await (getUniqueRepositoryId git (repo_path repository)));
  changesetCreateResponse ←
    fetch Connection
      (api ("v1/drafts/" +:+ to_str draftId +:+ "/changesets")) (JStr "POST") []
      (Some (Stringified
               (changesetBody gitProfileId baseSha branchName repoFirstCommitSha)));
  j' ← json_of changesetCreateResponse;
  changesetCreatedData ← lift (prop j' "data");
  patches ← lift (prop changesetCreatedData "patches");
  patch ← lift (prop patches "0");
  secureUploadData ← lift (prop patch "secureUploadData");
  u ← lift (prop secureUploadData "url");
  m ← lift (prop secureUploadData "method");
  hs ← lift (prop secureUploadData "headers");
  patchId ← lift (prop patch "id");
  _ ← fetch NodeFetch u m
        [("Content-Type", JStr "plain/text"); ("Host", hostHeader hs)]
        (Some (Text contents));
  _ ← fetch Connection (api ("/v1/patches/" +:+ to_str patchId))
        (JStr "PATCH") []
        (Some (Stringified
           (JObj [("baseCommitSha", JStr baseSha);
                  ("gitProfileId", JStr gitProfileId);
                  ("gitProvider", JStr (provider_id remote_provider));
                  ("gitRepositoryName",
                   read (js_split "/" (provider_path remote_provider)) "1");
                  ("gitRepositoryOwner", JStr (provider_owner remote_provider));
                  ("gitBranchName", JStr branchName)])));
  mret (JObj (set_field "changesets" (JArr [changesetCreatedData])
                (spread newDraft))).

Definition create (repository : Repository) (baseSha contents : string)
  : Svc jv :=
  let '(remoteResult, userResult, branchResult) :=
    allSettled3 (await (getBestRemoteWithProvider git (repo_uri repository)))
                (await (getCurrentUser git (repo_uri repository)))
                (await (getBranch repository)) in
  '(remote_provider, gitProfileId, branchName) ←
    lift (resolveAncillary remoteResult userResult branchResult);
  publish repository baseSha contents remote_provider gitProfileId branchName.

End service.

(** ** Vocabulary for the properties of the service *)

(** [issues P Q m]: whatever the log so far, [m] only appends requests
    satisfying [P], and if it rejects, the exception satisfies [Q]. *)
Definition issues {A} (P : request → Prop) (Q : exn → Prop) (m : Svc A) : Prop :=
  ∀ log, ∃ new,
    (m log).2 = (log ++ new) ∧ Forall P new ∧ ∀ e, (m log).1 = inl e → Q e.

Definition no_Error (e : exn) : Prop := ∀ msg, e ≠ Error msg.

(** The provider the repository's best remote resolves to, read off the
    collaborator's promise: absent when the promise rejects, when there is
    no remote, and when the remote has no provider. *)
Definition providerFound (git : GitService) (repository : Repository)
  : option GitProvider :=
  match getBestRemoteWithProvider git (repo_uri repository) with
  | inr (Some remote) => provider remote
  | _ => None
  end.

(** The request [getPatches] lists the patch rows of a draft with. *)
Definition listingRequest (base : string) (id : jv) : request :=
  Request Connection (api base ("/v1/drafts/" +:+ to_str id +:+ "/patches"))
    (JStr "GET") [] None.

(** What [getPatches] makes of one listed row when no contents are asked
    for. *)
Definition metadataOnly (row : jv) : jv :=
  if nullish row || nullish (read row "secureDownloadData") then JUndefined
  else JObj [("id", read row "id");
             ("draftId", read row "draftId");
             ("gitProfileId", read row "gitProfileId");
             ("gitRepositoryName", read row "gitRepositoryName");
             ("gitBranchName", read row "gitBranchName");
             ("contents", JStr "")].

Definition draftRequest (base : string) (id : jv) : request :=
  Request Connection (api base ("v1/drafts/" +:+ to_str id)) (JStr "GET") [] None.

Definition changesetsRequest (base : string) (id : jv) : request :=
  Request Connection (api base ("/v1/drafts/" +:+ to_str id +:+ "/changesets"))
    (JStr "GET") [] None.

(** What holds of an upload issued through node-fetch. *)
Definition uploadLabelled (contents : string) (r : request) : Prop :=
  via r = NodeFetch →
  field "Content-Type" (headers r) = Some (JStr "plain/text")
  ∧ body r = Some (Text contents).


(** A request is either a plain API call or a download that asks for
    [text/plain] and sends no body. *)
Definition plainTextDownload (r : request) : Prop :=
  body r = None
  ∧ (headers r = [] ∨ field "Accept" (headers r) = Some (JStr "text/plain")).

Definition patchRequest (base : string) (id : jv) : request :=
  Request Connection (api base ("/v1/patches/" +:+ to_str id)) (JStr "GET") [] None.

(** The download of [getPatchContents]: sent through node-fetch to the
    [secureDownloadData] endpoint with its method, [Accept: text/plain] and
    the first [Host] header; the text of the response is returned as is. *)
Definition downloadRequest (ch : channel) (secureDownloadData : jv) : request :=
  Request ch (read secureDownloadData "url") (read secureDownloadData "method")
    [("Accept", JStr "text/plain");
     ("Host", hostHeader (read secureDownloadData "headers"))] None.

End CloudPatchService.

(** ** The patch details webview provider *)

Module PatchDetailsWebview.

(** Objects the provider shares with its callers (patch sets, patches,
    preferences) live in a heap; a context field holds a primitive or a
    reference, and [===] on references is identity. *)
Definition loc := nat.

Inductive val :=
  | VUndefined
  | VNull
  | VBool (b : bool)
  | VNum (n : Z)
  | VStr (s : string)
  | VRef (l : loc).

#[global] Instance val_eq_dec : EqDecision val.
Proof. solve_decision. Defined.

(** [v == null] *)
Definition is_nullish (v : val) : bool :=
  match v with VUndefined | VNull => true | _ => false end.

Record Repository := { repo_path : string; repo_uri : string }.
Record GitCommit := { sha : string }.
Record GitFileChange := {
  status : string;
  repoPath : string;
  path : string;
  originalPath : option string;
}.

(** The [type] of a [GitPatch] ('file') or of a [GitCloudPatch] ('cloud'). *)
Inductive patchType := file | cloud.

Record GitPatch := {
  type : patchType;
  contents : string;
  baseRef : option string;
  files : option (list GitFileChange);
  repo : option Repository;
  commit : option GitCommit;
}.

Record FilesPreferences := {
  compact : bool;
  icon : string;
  layout : string;
  threshold : Z;
}.
Record Preferences := {
  avatars : bool;
  dateFormat : string;
  files_preferences : FilesPreferences;
  indentGuides : string;
}.

Inductive obj :=
  | OLocalPatch (patch : loc)             (* { type: 'local', patch } *)
  | OCloudPatch (createdAt updatedAt : Z) (changesets : list (list loc))
                                          (* changesets[i].patches[j] *)
  | OPatch (p : GitPatch)
  | OPreferences (p : Preferences).

Record FileDetails := {
  fd_path : string;
  fd_originalPath : option string;
  fd_status : string;
  fd_repoPath : string;
  fd_icon_dark : string;
  fd_icon_light : string;
}.

Inductive PatchDetails :=
  | LocalPatchDetails (files : option (list FileDetails))
  | CloudPatchDetails (repoPath : string) (author_name author_email : string)
      (files : option (list FileDetails)) (createdAt updatedAt : Z).


(** The serialized [State] sent to the webview. *)
Record State := {
  webviewId : string;
  timestamp : nat;
  state_patch : option PatchDetails;
  state_preferences : option Preferences;
}.

(** A callback handed to [setTimeout] by [getDetailsModel]; it closes over
    the patch set and the patch. *)
Record Enrichment := {
  enrich_patchset : val;
  enrich_patch : loc;
  enrich_due : nat;
}.

Inductive interaction :=
  | RepositoryPicker (title placeholder : string)
  | CommitPicker (repoUri title placeholder : string)
  | ErrorMessage (message : string).

(** The host and the container, at their interface: what the pickers
    answer and what the git operations return. *)
Record Host := {
  host_id : string;
  fileIcon : string → string → string;    (* theme, status: the icon's webview uri *)
  getDiffFiles : string → string → Js.promise (option (list GitFileChange));
  getRepositoryOrShowPicker : option Repository;
  showCommitPicker : string → option GitCommit;
  createUnreachableCommitForPatch :
    string → string → string → string → Js.promise (option GitCommit);
}.

Record provider := Provider {
  _context : gmap string val;
  _pendingContext : option (gmap string val);
  (** [undefined] until first used; then the deferrable, with the time its
      timer is due when one is running. *)
  _notifyDidChangeStateDebounced : option (option nat);
  heap : gmap loc obj;
  now : nat;                              (* Date.now(), in milliseconds *)
  timeouts : list Enrichment;             (* callbacks handed to setTimeout *)
  notified : list State;                  (* host.notify(DidChangeNotificationType, _) *)
  logged : list Js.exn;                   (* Logger.error *)
  shown : list interaction;
}.

Definition set_context (c : gmap string val) (σ : provider) : provider :=
  Provider c (_pendingContext σ) (_notifyDidChangeStateDebounced σ) (heap σ)
    (now σ) (timeouts σ) (notified σ) (logged σ) (shown σ).
Definition set_pendingContext (p : option (gmap string val)) (σ : provider)
  : provider :=
  Provider (_context σ) p (_notifyDidChangeStateDebounced σ) (heap σ)
    (now σ) (timeouts σ) (notified σ) (logged σ) (shown σ).
Definition set_debounced (d : option (option nat)) (σ : provider) : provider :=
  Provider (_context σ) (_pendingContext σ) d (heap σ)
    (now σ) (timeouts σ) (notified σ) (logged σ) (shown σ).
Definition set_heap (h : gmap loc obj) (σ : provider) : provider :=
  Provider (_context σ) (_pendingContext σ) (_notifyDidChangeStateDebounced σ) h
    (now σ) (timeouts σ) (notified σ) (logged σ) (shown σ).
Definition set_timeouts (ts : list Enrichment) (σ : provider) : provider :=
  Provider (_context σ) (_pendingContext σ) (_notifyDidChangeStateDebounced σ)
    (heap σ) (now σ) ts (notified σ) (logged σ) (shown σ).
Definition set_notified (ns : list State) (σ : provider) : provider :=
  Provider (_context σ) (_pendingContext σ) (_notifyDidChangeStateDebounced σ)
    (heap σ) (now σ) (timeouts σ) ns (logged σ) (shown σ).
Definition set_logged (es : list Js.exn) (σ : provider) : provider :=
  Provider (_context σ) (_pendingContext σ) (_notifyDidChangeStateDebounced σ)
    (heap σ) (now σ) (timeouts σ) (notified σ) es (shown σ).
Definition set_shown (us : list interaction) (σ : provider) : provider :=
  Provider (_context σ) (_pendingContext σ) (_notifyDidChangeStateDebounced σ)
    (heap σ) (now σ) (timeouts σ) (notified σ) (logged σ) us.

(** [context[key]] *)
Definition field_of (context : gmap string val) (key : string) : val :=
  default VUndefined (context !! key).

(** [{ ...context, ...pending }] *)
Definition merged (context : gmap string val)
    (pending : option (gmap string val)) : gmap string val :=
  default ∅ pending ∪ context.

(** Modelled from the spec: the change detection of [updatePendingContext]
    in webviews/webviewController, which is not among the sources.  A
    touched field counts as unchanged when [force] is off and its value
    equals the committed one (value equality per touched field), the
    overlay holding no value for it, so that the last writer of a field
    wins. *)
Definition unchanged (current : gmap string val)
    (pending : option (gmap string val)) (force : bool)
    (entry : string * val) : Prop :=
  force = false
  ∧ current !! entry.1 = Some entry.2
  ∧ default ∅ pending !! entry.1 = None.

#[global] Instance unchanged_dec current pending force entry :
  Decision (unchanged current pending force entry).
Proof. unfold unchanged. apply _. Defined.

(** Modelled from the spec: [updatePendingContext] of
    webviews/webviewController, which is not among the sources.  It
    shallow-merges [update] into the pending overlay and returns whether
    anything actually changed, with the overlay to keep. *)
Definition updatePendingContext_of (current : gmap string val)
    (pending : option (gmap string val)) (update : gmap string val)
    (force : bool) : bool * option (gmap string val) :=
  let touched := filter (λ entry, ¬ unchanged current pending force entry) update in
  if decide (touched = ∅) then (false, pending)
  else (true, Some (touched ∪ default ∅ pending)).



(** Modelled from the spec: [cancel] of that deferrable drops the timer;
    here as [this._notifyDidChangeStateDebounced?.cancel()]. *)
Definition debounce_cancel (σ : provider) : provider :=
  match _notifyDidChangeStateDebounced σ with
  | Some _ => set_debounced (Some None) σ
  | None => σ
  end.

Definition with_repo (r : Repository) (p : GitPatch) : GitPatch :=
  {| type := type p; contents := contents p; baseRef := baseRef p;
     files := files p; repo := Some r; commit := commit p |}.
Definition with_baseRef (b : option string) (p : GitPatch) : GitPatch :=
  {| type := type p; contents := contents p; baseRef := b;
     files := files p; repo := repo p; commit := commit p |}.
Definition with_commit (c : option GitCommit) (p : GitPatch) : GitPatch :=
  {| type := type p; contents := contents p; baseRef := baseRef p;
     files := files p; repo := repo p; commit := c |}.

(** The two pickers of [getUnreachablePatchCommit]. *)
Definition pickRepository : interaction :=
  RepositoryPicker "Patch Details: Select Repository"
    "Choose which repository this patch belongs to".

Definition pickBase (r : Repository) : interaction :=
  CommitPicker (repo_uri r) "Patch Details: Select Base"
    "Choose the base which this patch was created from or should be applied to".

Section provider.

Context (host : Host).

Definition serializePreferences (σ : provider) (v : val) : option Preferences :=
  match v with
  | VRef l => match heap σ !! l with Some (OPreferences p) => Some p | _ => None end
  | _ => None
  end.

Definition fileDetails (f : GitFileChange) : FileDetails :=
  {| fd_path := path f;
     fd_originalPath := originalPath f;
     fd_status := status f;
     fd_repoPath := repoPath f;
     fd_icon_dark := fileIcon host "dark" (status f);
     fd_icon_light := fileIcon host "light" (status f) |}.

(** Lines 558-563 of [getDetailsModel]: the patch of a patch set, and
    whether the set is local; for a cloud patch set also its dates. *)
Definition detailsTarget (σ : provider) (patchset : val)
  : Js.throws (option (Z * Z) * loc) :=
  match patchset with
  | VRef l =>
      match heap σ !! l with
      | Some (OLocalPatch patch) => inr (None, patch)
      | Some (OCloudPatch createdAt updatedAt changesets) =>
          match changesets !! 0%nat with
          | Some patches =>
              match patches !! 0%nat with
              | Some patch => inr (Some (createdAt, updatedAt), patch)
              | None => inl Js.TypeError
              end
          | None => inl Js.TypeError
          end
      | _ => inl Js.TypeError
      end
  | _ => inl Js.TypeError
  end.

Definition getDetailsModel (patchset : val) (σ : provider)
  : Js.throws PatchDetails * provider :=
  match detailsTarget σ patchset with
  | inl e => (inl e, σ)
  | inr (cloudDates, l) =>
      match heap σ !! l with
      | Some (OPatch patch) =>
          let σ1 :=
            match files patch with
            | None =>
                set_timeouts
                  (timeouts σ ++ [{| enrich_patchset := patchset;
                                     enrich_patch := l;
                                     enrich_due := now σ + 1 |}]) σ
            | Some _ => σ
            end in
          let files := fmap (M := list) fileDetails <$> files patch in
          match cloudDates, type patch with
          | None, _ | _, file => (inr (LocalPatchDetails files), σ1)
          | Some (createdAt, updatedAt), cloud =>
              match repo patch with
              | Some r =>
                  (inr (CloudPatchDetails (repo_path r) "You" "no@way.com" files
                          createdAt updatedAt), σ1)
              | None => (inl Js.TypeError, σ1)
              end
          end
      | _ => (inl Js.TypeError, σ)
      end
  end.

(** [_cancellationTokenSource] is never assigned in the source, so the
    cancellation at the head of [getState] has nothing to cancel. *)
Definition getState (current : gmap string val) (σ : provider)
  : Js.throws State * provider :=
  let '(details, σ1) :=
    if is_nullish (field_of current "patch") then (inr None, σ)
    else
      let '(d, σ1) := getDetailsModel (field_of current "patch") σ in
      (Some <$> d, σ1) in
  ((λ d, {| webviewId := host_id host;
            timestamp := now σ;
            state_patch := d;
            state_preferences :=
              serializePreferences σ (field_of current "preferences") |})
     <$> details, σ1).

Definition updatePendingContext (context : gmap string val) (force : bool)
    (σ : provider) : bool * provider :=
  let '(changed, pending) :=
    updatePendingContext_of (_context σ) (_pendingContext σ) context force in
  (changed, if changed then set_pendingContext pending σ else σ).

(** Returns [false] from the early return, [true] for the progress promise
    of the notification. *)
Definition notifyDidChangeState (force : bool) (σ : provider) : bool * provider :=
  let σ := debounce_cancel σ in
  if negb force && bool_decide (_pendingContext σ = None) then (false, σ)
  else
    let σ :=
      match _pendingContext σ with
      | Some _ =>
          set_pendingContext None
            (set_context (merged (_context σ) (_pendingContext σ)) σ)
      | None => σ
      end in
    let '(state, σ) := getState (_context σ) σ in
    (true,
     match state with
     | inr s => set_notified (notified σ ++ [s]) σ
     | inl ex => set_logged (logged σ ++ [ex]) σ
     end).



(** Lines 643-653 of [getUnreachablePatchCommit]: the patch the committed
    context designates. *)
Definition commitTarget (σ : provider) : Js.throws loc :=
  match field_of (_context σ) "patch" with
  | VRef l =>
      match heap σ !! l with
      | Some (OLocalPatch patch) => inr patch
      | Some (OCloudPatch _ _ changesets) =>
          match changesets !! 0%nat ≫= (λ patches, patches !! 0%nat) with
          | Some patch => inr patch
          | None => inl Js.TypeError       (* patch.repo of undefined *)
          end
      | _ => inl (Js.Error "Invalid patch type")
      end
  | _ => inl (Js.Error "Invalid patch type")
  end.

(** Leaving [getUnreachablePatchCommit]: the patch as assigned so far and
    what was shown to the user. *)
Definition leave (l : loc) (patch : GitPatch) (ui : list interaction)
    (result : option GitCommit) (σ : provider)
  : Js.throws (option GitCommit) * provider :=
  (inr result,
   set_shown (shown σ ++ ui) (set_heap (<[l := OPatch patch]> (heap σ)) σ)).

(** Lines 676-690: materialize the commit. *)
Definition materialize (l : loc) (patch : GitPatch) (r : Repository)
    (ui : list interaction) (σ : provider)
  : Js.throws (option GitCommit) * provider :=
  match commit patch with
  | Some c => leave l patch ui (Some c) σ
  | None =>
      match createUnreachableCommitForPatch host (repo_uri r) (contents patch)
              (default "HEAD" (baseRef patch)) "PATCH" with
      | inr c => leave l (with_commit c patch) ui c σ
      | inl message =>
          leave l (with_baseRef None patch)
            (ui ++ [ErrorMessage
                      ("Unable preview the patch on base '"
                       +:+ default "undefined" (baseRef patch)
                       +:+ "': " +:+ message)])
            None σ
      end
  end.

(** Lines 665-674: make sure there is a base. *)
Definition selectBase (l : loc) (patch : GitPatch) (r : Repository)
    (ui : list interaction) (σ : provider)
  : Js.throws (option GitCommit) * provider :=
  match baseRef patch with
  | Some _ => materialize l patch r ui σ
  | None =>
      let ui := ui ++ [pickBase r] in
      match showCommitPicker host (repo_uri r) with
      | None => leave l patch ui None σ
      | Some pick => materialize l (with_baseRef (Some (sha pick)) patch) r ui σ
      end
  end.

Definition getUnreachablePatchCommit (σ : provider)
  : Js.throws (option GitCommit) * provider :=
  match commitTarget σ with
  | inl e => (inl e, σ)
  | inr l =>
      match heap σ !! l with
      | Some (OPatch patch) =>
          match repo patch with
          | Some r => selectBase l patch r [] σ
          | None =>
              let ui := [pickRepository] in
              match getRepositoryOrShowPicker host with
              | None => leave l patch ui None σ
              | Some pick => selectBase l (with_repo pick patch) pick ui σ
              end
          end
      | _ => (inl Js.TypeError, σ)
      end
  end.

(** ** Time *)



End provider.




(** ** Vocabulary for the properties of the provider *)


(** A run of [updatePendingContext] calls with no flush in between. *)
Definition pendingUpdates (updates : list (gmap string val * bool))
    (σ : provider) : provider :=
  foldl (λ σ update, (updatePendingContext update.1 update.2 σ).2) σ updates.

(** The overlay a run of updates leaves, from the committed context and
    the overlay it starts with. *)
Definition pendingAfter (current : gmap string val)
    (pending : option (gmap string val))
    (updates : list (gmap string val * bool)) : option (gmap string val) :=
  foldl (λ p update, (updatePendingContext_of current p update.1 update.2).2)
    pending updates.





End PatchDetailsWebview.

(** * Concrete runs of the service *)

Module Scenario.

Import CloudPatchService.

(** A transport that answers the n-th request with the n-th entry of a
    script. *)
Definition scripted (script : list (option response)) (log : list request)
  : option response :=
  mjoin (script !! (length log - 1)%nat).

Definition respondJson (v : jv) : option response :=
  Some (Response (Some v) None).
Definition respondText (s : string) : option response :=
  Some (Response None (Some s)).
Definition withData (v : jv) : jv := JObj [("data", v)].

Definition apiBase : string := "https://api.example".

Definition repository : Repository :=
  {| repo_uri := "file:///work/widgets";
     repo_path := "/work/widgets";
     getBranch := inr (Some {| branch_name := "main" |}) |}.

(** A git service that finds a provider, has no current user, and gives
    [sha] as the repository's first-commit id. *)
Definition gitWith (sha : option string) : GitService :=
  {| getBestRemoteWithProvider := λ _,
       inr (Some {| provider := Some {| provider_id := "github";
                                        provider_path := "acme/widgets";
                                        provider_owner := "acme" |} |});
     getCurrentUser := λ _, inl "no user configured";
     getUniqueRepositoryId := λ _, inr sha |}.

(** A git service for a repository without remotes. *)
Definition gitWithoutRemote : GitService :=
  {| getBestRemoteWithProvider := λ _, inl "no remotes";
     getCurrentUser := λ _, inr (Some {| user_name := Some "Ada";
                                         user_email := None |});
     getUniqueRepositoryId := λ _, inr None |}.

Definition draft : jv :=
  JObj [("id", JStr "d1"); ("deepLink", JStr "https://app.example/d1");
        ("createdAt", JStr "2023-10-01T00:00:00Z");
        ("updatedAt", JStr "2023-10-01T00:00:00Z");
        ("createdBy", JStr "u1"); ("isPublic", JBool false)].

Definition presigned (u m : string) : jv :=
  JObj [("url", JStr u); ("method", JStr m);
        ("headers", JObj [("Host", JArr [JStr "blobs.example"])])].

Definition createdChangeset : jv :=
  JObj [("id", JStr "c1"); ("draftId", JStr "d1");
        ("patches",
         JArr [JObj [("id", JStr "p1");
                     ("secureUploadData",
                      presigned "https://blobs.example/p1" "PUT")]])].

(** The server's answers along a successful [create]. *)
Definition publishing : list request → option response :=
  scripted [respondJson (withData (JObj [("id", JStr "d1")]));
            respondJson (withData draft);
            respondJson (withData (JArr []));
            respondJson (withData createdChangeset);
            respondText "";
            respondJson (withData JNull)].

(** The draft is served, the changesets call answers without [data]. *)
Definition changesetsMissing : list request → option response :=
  scripted [respondJson (withData draft);
            respondJson (JObj [("error", JStr "Not Found")])].

Definition row (id : string) : jv :=
  JObj [("id", JStr id); ("draftId", JStr "d1");
        ("gitProfileId", JStr "me@example.com");
        ("gitRepositoryName", JStr "widgets");
        ("gitBranchName", JStr "main");
        ("secureDownloadData", presigned ("https://blobs.example/" +:+ id) "GET")].

(** A row still waiting for its contents: it has no [secureDownloadData]. *)
Definition unfinishedRow (id : string) : jv :=
  JObj [("id", JStr id); ("draftId", JStr "d1");
        ("gitProfileId", JStr "me@example.com");
        ("gitRepositoryName", JStr "widgets");
        ("gitBranchName", JStr "main")].

Definition patchData (id contents : string) : jv :=
  JObj [("id", JStr id); ("draftId", JStr "d1");
        ("gitProfileId", JStr "me@example.com");
        ("gitRepositoryName", JStr "widgets");
        ("gitBranchName", JStr "main");
        ("contents", JStr contents)].

Definition threeRows : list jv := [row "p1"; row "p2"; row "p3"].

(** Three rows are listed; the download of the second one rejects. *)
Definition secondDownloadFails : list request → option response :=
  scripted [respondJson (withData (JArr threeRows));
            respondText "diff --git a/1 b/1";
            None;
            respondText "diff --git a/3 b/3"].

Definition mixedRows : list jv := [row "p1"; unfinishedRow "p2"; row "p3"].

Definition listingMixed : list request → option response :=
  scripted [respondJson (withData (JArr mixedRows))].

End Scenario.

(** * Concrete states of the provider *)

Module ViewScenario.

Import PatchDetailsWebview.

Definition changedFile : GitFileChange :=
  {| status := "M"; repoPath := "/work/widgets"; path := "src/main.ts";
     originalPath := None |}.

(** A host whose pickers are dismissed and whose git cannot materialize
    the patch. *)
Definition host : Host :=
  {| host_id := "gitlens.views.patchDetails";
     fileIcon := λ theme status, "images/" +:+ theme +:+ "/icon-status-" +:+ status;
     getDiffFiles := λ _ _, inr (Some [changedFile]);
     getRepositoryOrShowPicker := None;
     showCommitPicker := λ _, None;
     createUnreachableCommitForPatch := λ _ _ _ _, inl "patch does not apply" |}.

Definition widgets : Repository :=
  {| repo_path := "/work/widgets"; repo_uri := "file:///work/widgets" |}.

Definition freshPatch : GitPatch :=
  {| type := file; contents := "diff --git a/src/main.ts b/src/main.ts";
     baseRef := None; files := None; repo := None; commit := None |}.

Definition preferences : Preferences :=
  {| avatars := true; dateFormat := "MMMM Do, YYYY h:mma";
     files_preferences :=
       {| compact := true; icon := "type"; layout := "auto"; threshold := 5 |};
     indentGuides := "onHover" |}.

(** A provider showing a local patch set (at 1) whose patch (at 2) is
    [patch]. *)
Definition showing (patch : GitPatch) : provider :=
  {| _context := {[ "patch" := VRef 1; "preferences" := VRef 3;
                    "visible" := VBool true ]};
     _pendingContext := None;
     _notifyDidChangeStateDebounced := None;
     heap := {[ 1%nat := OLocalPatch 2; 2%nat := OPatch patch;
                3%nat := OPreferences preferences ]};
     now := 1000;
     timeouts := [];
     notified := [];
     logged := [];
     shown := [] |}.



End ViewScenario.

(** * Properties of the cloud patch service *)

Module CloudPatchServiceFacts.

Import CloudPatchService.

(** ** Reading properties *)

Example parse_index_canonical :
  parse_index "0" = Some 0%nat ∧ parse_index "17" = Some 17%nat
  ∧ parse_index "007" = None ∧ parse_index "Host" = None.
Proof. by split_and!. Qed.

Example hostHeader_first_host :
  hostHeader (JObj [("Host", JArr [JStr "blobs.example"; JStr "other"])])
  = JStr "blobs.example"
  ∧ hostHeader (JObj []) = JStr ""
  ∧ hostHeader JUndefined = JStr "".
Proof. by split_and!. Qed.

Example provider_path_split :
  read (js_split "/" "acme/widgets") "1" = JStr "widgets"
  ∧ read (js_split "/" "widgets") "1" = JUndefined.
Proof. by split_and!. Qed.

Example prop_of_undefined_throws :
  prop JUndefined "data" = inl TypeError
  ∧ prop (JObj [("data", JNull)]) "data" = inr JNull
  ∧ prop (JObj []) "data" = inr JUndefined.
Proof. by split_and!. Qed.

(** ** Reasoning about runs of the service monad *)

Lemma issues_ret {A} P Q (x : A) : issues P Q (mret x).
Proof.
  intros log. exists []. rewrite app_nil_r. repeat split; [constructor|].
  intros e He. discriminate He.
Qed.

Lemma issues_lift {A} P Q (m : throws A) :
  (∀ e, m = inl e → Q e) → issues P Q (lift m).
Proof.
  intros Hm log. exists []. rewrite app_nil_r. repeat split; [constructor|].
  intros e He. apply Hm, He.
Qed.

Lemma issues_bind {A B} P Q (m : Svc A) (k : A → Svc B) :
  issues P Q m → (∀ x, issues P Q (k x)) → issues P Q (m ≫= k).
Proof.
  intros Hm Hk log. destruct (Hm log) as (new1 & Hlog & Hnew1 & Herr).
  unfold mbind, svc_bind. destruct (m log) as [[e|x] log1] eqn:Hrun; simpl in *.
  - exists new1. repeat split; try done. intros e' [= <-]. by apply Herr.
  - destruct (Hk x log1) as (new2 & Hlog2 & Hnew2 & Herr2).
    exists (new1 ++ new2). subst log1. rewrite Hlog2, app_assoc.
    repeat split; [by apply Forall_app|done].
Qed.

Lemma issues_bind_lift {A B} P Q (m : throws A) (k : A → Svc B) :
  (∀ e, m = inl e → Q e) →
  (∀ x, m = inr x → issues P Q (k x)) →
  issues P Q (lift m ≫= k).
Proof.
  intros Hm Hk log. unfold mbind, svc_bind, lift. destruct m as [e|x].
  - exists []. rewrite app_nil_r. repeat split; [constructor|].
    intros e' [= <-]. by apply Hm.
  - by apply Hk.
Qed.

Lemma issues_fetch net P (Q : exn → Prop) ch u m hs b :
  P (Request ch u m hs b) → Q NetworkError → issues P Q (fetch net ch u m hs b).
Proof.
  intros HP HQ log. exists [Request ch u m hs b]. unfold fetch. simpl.
  repeat split; [by repeat constructor|].
  intros e. destruct (net _); [done|]. by intros [= <-].
Qed.

Lemma issues_allSettled {A} P Q (ps : list (Svc A)) :
  Forall (issues P (λ _, True)) ps → issues P Q (allSettled ps).
Proof.
  induction 1 as [|p ps Hp _ IH]; [apply issues_ret|].
  intros log. simpl. destruct (Hp log) as (new1 & Hlog1 & Hnew1 & _).
  destruct (p log) as [r log1] eqn:Hrun. simpl in Hlog1. subst log1.
  destruct (IH (log ++ new1)) as (new2 & Hlog2 & Hnew2 & Herr2).
  destruct (allSettled ps (log ++ new1)) as [[e|rs] log2]; simpl in *;
    subst log2; exists (new1 ++ new2); rewrite app_assoc;
    (repeat split; [by apply Forall_app|]).
  - intros e' [= <-]. by apply Herr2.
  - done.
Qed.

Lemma prop_raises v k e : prop v k = inl e → e = TypeError.
Proof. unfold prop. destruct (nullish v); [by intros [= <-]|done]. Qed.

Lemma prop_inr v k x : prop v k = inr x → nullish v = false ∧ x = read v k.
Proof. unfold prop. destruct (nullish v); [done|]. by intros [= <-]. Qed.

Lemma mapM_raises {A B} (Q : exn → Prop) (f : A → throws B) (l : list A) e :
  (∀ x e, f x = inl e → Q e) → mapM (M := throws) f l = inl e → Q e.
Proof.
  intros Hf. induction l as [|x l IH]; simpl; [done|].
  unfold mbind, throws_bind at 1. destruct (f x) as [e'|y] eqn:Hfx.
  - intros [= <-]. by eapply Hf.
  - unfold mbind, throws_bind at 1. destruct (mapM f l) as [e'|ys]; [|done].
    intros [= <-]. by apply IH.
Qed.

Lemma js_map_raises (Q : exn → Prop) f v e :
  Q TypeError → (∀ x e, f x = inl e → Q e) → js_map f v = inl e → Q e.
Proof.
  intros HT Hf. destruct v; simpl; try (by intros [= <-]).
  unfold fmap, throws_fmap. case_match eqn:Hm; [|done].
  intros [= <-]. by eapply mapM_raises.
Qed.

Lemma await_raises {A} (p : promise A) e : await p = inl e → ∃ r, e = Rejected r.
Proof. destruct p; simpl; [intros [= <-]; eauto|done]. Qed.

Lemma bind_throws_raises {A B} (Q : exn → Prop) (m : throws A)
    (k : A → throws B) e :
  (∀ e, m = inl e → Q e) →
  (∀ x e, k x = inl e → Q e) →
  m ≫= k = inl e → Q e.
Proof.
  intros Hm Hk. unfold mbind, throws_bind. destruct m as [e'|x]; [|by apply Hk].
  intros [= <-]. by apply Hm.
Qed.

(** Discharges "this step only raises ..." for the primitive steps. *)
Ltac raise_side H :=
  first
    [ apply prop_raises in H; subst
    | apply await_raises in H; destruct H as [? ->]
    | repeat case_match; simplify_eq ];
  try done.

Ltac svc_step :=
  first
    [ apply issues_ret
    | apply issues_fetch; [try done|try done]
    | apply issues_lift;
        let e := fresh "e" in let H := fresh "H" in intros e H; raise_side H
    | apply issues_bind_lift;
        [ let e := fresh "e" in let H := fresh "H" in intros e H; raise_side H
        | let x := fresh "x" in let H := fresh "H" in intros x H ]
    | apply issues_bind; [| let x := fresh "x" in intros x ] ].

Section issues.
Context (base : string) (net : list request → option response).
Context (P : request → Prop) (Q : exn → Prop).
Hypothesis P_get : ∀ u, P (Request Connection u (JStr "GET") [] None).
Hypothesis Q_TypeError : Q TypeError.
Hypothesis Q_NetworkError : Q NetworkError.
Hypothesis Q_SyntaxError : Q SyntaxError.

Lemma getChangesets_issues id : issues P Q (getChangesets base net id).
Proof using All.
  unfold getChangesets. do 3 svc_step. apply issues_lift. intros e He.
  eapply js_map_raises; [exact Q_TypeError| |exact He].
  intros cd e'.
  repeat (apply bind_throws_raises;
            [intros ? ->%prop_raises; exact Q_TypeError|intros ??]).
  done.
Qed.

Lemma get_issues id : issues P Q (get base net id).
Proof using All.
  unfold get. do 3 svc_step.
  apply issues_bind; [apply getChangesets_issues|intros changeSets].
  repeat svc_step.
Qed.

End issues.

(** ** The ancillary resolutions of [create] *)

Lemma publish_issues base net git repository baseSha contents p gitProfileId branchName :
  issues (λ _, True) no_Error
    (publish base net git repository baseSha contents p gitProfileId branchName).
Proof.
  unfold publish. do 4 svc_step.
  apply issues_bind; [by apply get_issues|intros newDraft].
  destruct (nullish newDraft); repeat svc_step.
Qed.

Lemma publish_no_Error base net git repository baseSha contents p
    gitProfileId branchName log msg :
  (publish base net git repository baseSha contents p gitProfileId branchName log).1
  ≠ inl (Error msg).
Proof.
  intros Hrun.
  destruct (publish_issues base net git repository baseSha contents p
              gitProfileId branchName log) as (_ & _ & _ & Herr).
  by apply (Herr _ Hrun msg).
Qed.

(** C1. In [create] the three ancillary resolutions are settled
    independently: the call throws 'No Git provider found' exactly when no
    provider was found (and then issues no request); otherwise it goes on
    to publish whatever became of the other two, a missing user giving the
    empty git profile id and a missing branch the empty branch name. *)
Theorem create_settles_ancillary_resolutions
    base net git repository baseSha contents log :
  let run := create base net git repository baseSha contents log in
  (run.1 = inl (Error "No Git provider found")
     ↔ providerFound git repository = None)
  ∧ (providerFound git repository = None → run.2 = log)
  ∧ (∀ p, providerFound git repository = Some p →
       ∃ gitProfileId branchName,
         run = publish base net git repository baseSha contents p
                 gitProfileId branchName log
         ∧ gitProfileId =
             match getCurrentUser git (repo_uri repository) with
             | inr (Some user) =>
                 match user_email user, user_name user with
                 | Some email, _ => email
                 | None, Some name => name
                 | None, None => ""
                 end
             | _ => ""
             end
         ∧ branchName =
             match getBranch repository with
             | inr (Some branch) => branch_name branch
             | _ => ""
             end).
Proof.
  assert (∀ p, providerFound git repository = Some p →
       ∃ gitProfileId branchName,
         create base net git repository baseSha contents log
         = publish base net git repository baseSha contents p
             gitProfileId branchName log
         ∧ gitProfileId =
             match getCurrentUser git (repo_uri repository) with
             | inr (Some user) =>
                 match user_email user, user_name user with
                 | Some email, _ => email
                 | None, Some name => name
                 | None, None => ""
                 end
             | _ => ""
             end
         ∧ branchName =
             match getBranch repository with
             | inr (Some branch) => branch_name branch
             | _ => ""
             end) as Hfound.
  { intros p. unfold providerFound, create, allSettled3, resolveAncillary.
    destruct (getBestRemoteWithProvider git _) as [?|[[[p'|]]|]]; simpl; try done.
    intros [= ->]. eexists _, _. split; [reflexivity|].
    destruct (getCurrentUser git _) as [?|[[[?|] [?|]]|]],
             (getBranch repository) as [?|[[?]|]]; simpl; done. }
  assert (providerFound git repository = None →
          create base net git repository baseSha contents log
          = (inl (Error "No Git provider found"), log)) as Hmissing.
  { unfold providerFound, create, allSettled3, resolveAncillary.
    destruct (getBestRemoteWithProvider git _) as [?|[[[p'|]]|]]; simpl; done. }
  intros run. subst run. split_and!.
  - split.
    + intros Hrun. destruct (providerFound git repository) as [p|] eqn:Hp; [|done].
      destruct (Hfound p eq_refl) as (gp & bn & Heq & _). rewrite Heq in Hrun.
      by apply publish_no_Error in Hrun.
    + intros Hnone. by rewrite (Hmissing Hnone).
  - intros Hnone. by rewrite (Hmissing Hnone).
  - exact Hfound.
Qed.

(** ** Batches of patch rows: [getPatches] *)


Lemma getPatches_run base net id includeContents log resp j rows :
  net (log ++ [listingRequest base id]) = Some resp →
  json resp = Some j →
  prop j "data" = inr (JArr rows) →
  getPatches base net id includeContents log
  = match allSettled (getPatches_item net includeContents <$> rows)
            (log ++ [listingRequest base id]) with
    | (inr patches, log') => (inr (JArr (settledValue <$> patches)), log')
    | (inl e, log') => (inl e, log')
    end.
Proof.
  intros Hnet Hjson Hdata.
  unfold getPatches, mbind, svc_bind, fetch, json_of, lift, listingRequest in *.
  simpl. rewrite Hnet, Hjson, Hdata. simpl.
  by destruct (allSettled _ _) as [[?|?] ?].
Qed.


Lemma getPatches_item_without_contents net row log :
  ∃ r, getPatches_item net false row log = (r, log)
     ∧ settledValue (settle r) = metadataOnly row.
Proof.
  unfold getPatches_item, metadataOnly, mbind, svc_bind, lift, prop.
  destruct (nullish row); simpl; [by eexists|].
  destruct (nullish (read row "secureDownloadData")); simpl; by eexists.
Qed.

Lemma allSettled_without_contents net rows log :
  ∃ rs, allSettled (getPatches_item net false <$> rows) log = (inr rs, log)
      ∧ settledValue <$> rs = metadataOnly <$> rows.
Proof.
  induction rows as [|row rows (rs & Hrs & Hvals)]; [by exists []|].
  destruct (getPatches_item_without_contents net row log) as (r & Hrun & Hr).
  exists (settle r :: rs). rewrite !fmap_cons, Hr, Hvals. split; [|done].
  change (allSettled (getPatches_item net false row
                        :: (getPatches_item net false <$> rows)) log)
    with (let '(r, log') := getPatches_item net false row log in
          match allSettled (getPatches_item net false <$> rows) log' with
          | (inr rs, log'') => (inr (settle r :: rs), log'')
          | (inl e, log'') => (inl e, log'')
          end).
  by rewrite Hrun, Hrs.
Qed.

(** C10, as amended.  Called without [includeContents], [getPatches]
    issues the listing request and nothing else, and returns one result per
    listed row, in order: for a row that carries [secureDownloadData], the
    patch data with the metadata fields of the row and the empty string as
    contents; for a row without it, [undefined]. *)
Theorem getPatches_without_contents base net id log resp j rows :
  net (log ++ [listingRequest base id]) = Some resp →
  json resp = Some j →
  prop j "data" = inr (JArr rows) →
  getPatches base net id false log
  = (inr (JArr (metadataOnly <$> rows)), (log ++ [listingRequest base id])).
Proof.
  intros Hnet Hjson Hdata.
  rewrite (getPatches_run _ _ _ _ _ _ _ _ Hnet Hjson Hdata).
  destruct (allSettled_without_contents net rows
              (log ++ [listingRequest base id])) as (rs & -> & ->).
  done.
Qed.

(** ** Reading a draft: [get] and [getChangesets] *)

(** [getChangesets] never fulfils with [undefined]: when it fulfils, it is
    with the array [changesetsData.map] built. *)
Lemma getChangesets_fulfils_with_array base net id log v :
  (getChangesets base net id log).1 = inr v → ∃ xs, v = JArr xs.
Proof.
  unfold getChangesets, mbind, svc_bind, fetch, json_of, lift. simpl.
  destruct (net _) as [r|]; [|done]. destruct (json r) as [j|]; [|done].
  destruct (prop j "data") as [e|d]; [done|]. simpl.
  destruct d; simpl; try done. unfold fmap, throws_fmap.
  case_match; [done|]. intros [= <-]. eauto.
Qed.

(** When the changesets response carries no [data], [changesetsData.map]
    raises and the whole of [get] rejects; the draft that was fetched is
    lost. *)
Lemma get_rejects_without_changesets base net id log r1 j1 draftData r2 j2 :
  net (log ++ [draftRequest base id]) = Some r1 →
  json r1 = Some j1 →
  prop j1 "data" = inr draftData →
  net ((log ++ [draftRequest base id]) ++ [changesetsRequest base id]) = Some r2 →
  json r2 = Some j2 →
  nullish j2 = false →
  nullish (read j2 "data") = true →
  (get base net id log).1 = inl TypeError.
Proof.
  intros Hn1 Hj1 Hd1 Hn2 Hj2 Hnn Hdata.
  unfold get, getChangesets, mbind, svc_bind, fetch, json_of, lift,
    draftRequest, changesetsRequest in *.
  simpl. rewrite Hn1, Hj1, Hd1. simpl. rewrite Hn2, Hj2. unfold prop.
  rewrite Hnn. simpl. by destruct (read j2 "data").
Qed.

(** An empty list of changesets gives a draft with no changesets. *)
Lemma get_with_no_changesets base net id log r1 j1 draftData r2 j2 v :
  net (log ++ [draftRequest base id]) = Some r1 →
  json r1 = Some j1 →
  prop j1 "data" = inr draftData →
  net ((log ++ [draftRequest base id]) ++ [changesetsRequest base id]) = Some r2 →
  json r2 = Some j2 →
  prop j2 "data" = inr (JArr []) →
  (get base net id log).1 = inr v →
  read v "changesets" = JArr [].
Proof.
  intros Hn1 Hj1 Hd1 Hn2 Hj2 Hdata.
  unfold get, getChangesets, mbind, svc_bind, fetch, json_of, lift,
    draftRequest, changesetsRequest in *.
  simpl. rewrite Hn1, Hj1, Hd1. simpl. rewrite Hn2, Hj2, Hdata. simpl.
  unfold prop. destruct (nullish draftData); simpl; [done|].
  by intros [= <-].
Qed.

(** ** The requests of [create] *)

Lemma create_uploads base net git repository baseSha contents :
  issues (uploadLabelled contents) (λ _, True)
    (create base net git repository baseSha contents).
Proof.
  unfold create, allSettled3. apply issues_bind_lift; [done|].
  intros [[p gitProfileId] branchName] _. unfold publish. do 4 svc_step.
  apply issues_bind; [by apply get_issues|intros newDraft].
  destruct (nullish newDraft); repeat svc_step.
Qed.




(** ** Content downloads *)

Lemma getPatches_item_downloads net includeContents row :
  issues plainTextDownload (λ _, True) (getPatches_item net includeContents row).
Proof.
  unfold getPatches_item. do 8 svc_step.
  apply issues_bind; [|intros ?; repeat svc_step].
  destruct includeContents; [|svc_step].
  svc_step; [|unfold text_of; svc_step].
  apply issues_fetch; [|done]. split; [done|by right].
Qed.

Lemma downloads_accept_plain_text base net id includeContents :
  issues plainTextDownload (λ _, True) (getPatch base net id)
  ∧ issues plainTextDownload (λ _, True) (getPatchContents base net id)
  ∧ issues plainTextDownload (λ _, True) (getPatches base net id includeContents).
Proof.
  split_and!.
  - unfold getPatch. svc_step; [by apply issues_fetch; [split; [|left]|]|].
    do 10 svc_step.
    svc_step; [by apply issues_fetch; [split; [|right]|]|].
    unfold text_of. repeat svc_step.
  - unfold getPatchContents. svc_step; [by apply issues_fetch; [split; [|left]|]|].
    do 6 svc_step.
    svc_step; [by apply issues_fetch; [split; [|right]|]|].
    unfold text_of. repeat svc_step.
  - unfold getPatches. svc_step; [by apply issues_fetch; [split; [|left]|]|].
    do 2 svc_step. apply issues_bind_lift; [done|intros promises Hp].
    svc_step; [|svc_step]. apply issues_allSettled.
    destruct x1; simplify_eq/=. injection Hp as <-.
    apply Forall_fmap, Forall_forall.
    intros row _. apply getPatches_item_downloads.
Qed.

Lemma getPatchContents_returns_text base net id log r1 j1 patchData sdd r2 t :
  net (log ++ [patchRequest base id]) = Some r1 →
  json r1 = Some j1 →
  prop j1 "data" = inr patchData →
  prop patchData "secureDownloadData" = inr sdd →
  nullish sdd = false →
  net ((log ++ [patchRequest base id]) ++ [downloadRequest NodeFetch sdd])
    = Some r2 →
  text r2 = Some t →
  getPatchContents base net id log
  = (inr (JStr t),
     ((log ++ [patchRequest base id]) ++ [downloadRequest NodeFetch sdd])).
Proof.
  intros Hn1 Hj1 Hd Hsdd Hnn Hn2 Ht.
  unfold getPatchContents, mbind, svc_bind, fetch, json_of, text_of, lift,
    patchRequest, downloadRequest in *.
  simpl. rewrite Hn1, Hj1, Hd. simpl. rewrite Hsdd. unfold prop. rewrite Hnn.
  simpl. by rewrite Hn2, Ht.
Qed.

(** ** Concrete runs *)

Import Scenario.

Example create_without_provider :
  create apiBase publishing gitWithoutRemote repository "abc123"
    "diff --git a/f b/f" []
  = (inl (Error "No Git provider found"), []).
Proof. reflexivity. Qed.

Example getPatches_second_download_fails :
  (getPatches apiBase secondDownloadFails (JStr "d1") true []).1
  = inr (JArr [patchData "p1" "diff --git a/1 b/1";
               JUndefined;
               patchData "p3" "diff --git a/3 b/3"]).
Proof. reflexivity. Qed.


(** C10, the claim as stated fails: listed without contents, a row that has
    no [secureDownloadData] comes back as [undefined], not as patch data
    with empty contents. *)
Lemma getPatches_without_contents_drops_row :
  (getPatches apiBase listingMixed (JStr "d1") false []).1
  = inr (JArr [patchData "p1" ""; JUndefined; patchData "p3" ""])
  ∧ ¬ Forall (λ item, read item "contents" = JStr "")
        [patchData "p1" ""; JUndefined; patchData "p3" ""].
Proof.
  split; [reflexivity|].
  intros H. apply Forall_cons in H as [_ H]. apply Forall_cons in H as [H _].
  discriminate H.
Qed.

Lemma getPatches_without_contents_witness :
  getPatches apiBase listingMixed (JStr "d1") false []
  = (inr (JArr (metadataOnly <$> mixedRows)), [listingRequest apiBase (JStr "d1")]).
Proof.
  apply (getPatches_without_contents apiBase listingMixed (JStr "d1") []
           (Response (Some (withData (JArr mixedRows))) None)
           (withData (JArr mixedRows)) mixedRows); reflexivity.
Defined.

(** C7, on the code: the draft is served but the changesets response has no
    [data]; [get] does not return the draft with an empty list of
    changesets, it rejects with the [TypeError] of [changesetsData.map]. *)
Theorem get_rejects_when_changesets_absent :
  get apiBase changesetsMissing (JStr "d1") []
  = (inl TypeError,
     [draftRequest apiBase (JStr "d1"); changesetsRequest apiBase (JStr "d1")]).
Proof. reflexivity. Qed.

(** C8, on the code: along a successful [create] the contents are uploaded
    with the method and [Host] header of [secureUploadData], but labelled
    [plain/text], which is not the [text/plain] the downloads ask for. *)
Theorem create_uploads_as_plain_slash_text :
  (create apiBase publishing (gitWith (Some "4b825dc")) repository "abc123"
     "diff --git a/f b/f" []).2 !! 4%nat
  = Some (Request NodeFetch (JStr "https://blobs.example/p1") (JStr "PUT")
            [("Content-Type", JStr "plain/text"); ("Host", JStr "blobs.example")]
            (Some (Text "diff --git a/f b/f")))
  ∧ JStr "plain/text" ≠ JStr "text/plain".
Proof. split; [reflexivity|discriminate]. Qed.


End CloudPatchServiceFacts.

(** * Properties of the patch details webview provider *)

Module PatchDetailsWebviewFacts.

Import PatchDetailsWebview.

(** ** The pending overlay *)



Lemma updatePendingContext_of_unchanged current pending update force :
  (updatePendingContext_of current pending update force).1 = false →
  (updatePendingContext_of current pending update force).2 = pending.
Proof. unfold updatePendingContext_of. by case_decide. Qed.

Lemma updatePendingContext_of_changed current pending update force :
  (updatePendingContext_of current pending update force).1 = true →
  is_Some (updatePendingContext_of current pending update force).2.
Proof. unfold updatePendingContext_of. case_decide; [done|]. by eexists. Qed.


(** The provider's [updatePendingContext] touches the overlay only. *)
Lemma updatePendingContext_run context force σ :
  (updatePendingContext context force σ).2
  = set_pendingContext
      (updatePendingContext_of (_context σ) (_pendingContext σ) context force).2 σ.
Proof.
  unfold updatePendingContext.
  destruct (updatePendingContext_of _ _ _ _) as [[] pending] eqn:Hrun; simpl; [done|].
  pose proof (updatePendingContext_of_unchanged (_context σ) (_pendingContext σ)
                context force) as Hsame.
  rewrite Hrun in Hsame. simpl in Hsame. rewrite Hsame by done. by destruct σ.
Qed.

(** ** Flushing: [notifyDidChangeState] *)









(** ** Debouncing: bursts of updates *)

Lemma pendingUpdates_run updates σ :
  pendingUpdates updates σ
  = set_pendingContext (pendingAfter (_context σ) (_pendingContext σ) updates) σ.
Proof.
  revert σ. induction updates as [|[u f] updates IH]; intros σ; simpl.
  - by destruct σ.
  - rewrite IH, updatePendingContext_run. done.
Qed.


Lemma pendingAfter_Some current p updates :
  is_Some (pendingAfter current (Some p) updates).
Proof.
  revert p. induction updates as [|[u f] updates IH]; intros p; simpl; [by eexists|].
  unfold updatePendingContext_of. case_decide; simpl; apply IH.
Qed.








(** ** The details projection and its enrichment *)



(** ** Resolving the commit of a patch: [getUnreachablePatchCommit] *)

Lemma leave_run l patch ui result σ :
  (leave l patch ui result σ).1 = inr result
  ∧ shown (leave l patch ui result σ).2 = shown σ ++ ui
  ∧ heap (leave l patch ui result σ).2 !! l = Some (OPatch patch).
Proof. unfold leave. simpl. by rewrite lookup_insert_eq. Qed.

Lemma materialize_returns host l patch r ui σ :
  ∃ result, (materialize host l patch r ui σ).1 = inr result.
Proof.
  unfold materialize. destruct (commit patch); [by eexists|].
  destruct (createUnreachableCommitForPatch _ _ _ _ _); by eexists.
Qed.

Lemma materialize_shows host l patch r ui σ :
  ∃ rest, shown (materialize host l patch r ui σ).2 = shown σ ++ ui ++ rest.
Proof.
  unfold materialize. destruct (commit patch); [exists []; by rewrite app_nil_r|].
  destruct (createUnreachableCommitForPatch _ _ _ _ _);
    [eexists [_]|exists []; by rewrite app_nil_r].
  done.
Qed.

Lemma selectBase_returns host l patch r ui σ :
  ∃ result, (selectBase host l patch r ui σ).1 = inr result.
Proof.
  unfold selectBase. destruct (baseRef patch); [apply materialize_returns|].
  destruct (showCommitPicker host _); [apply materialize_returns|by eexists].
Qed.

Lemma selectBase_shows host l patch r ui σ :
  ∃ rest, shown (selectBase host l patch r ui σ).2 = shown σ ++ ui ++ rest.
Proof.
  unfold selectBase. destruct (baseRef patch); [apply materialize_shows|].
  destruct (showCommitPicker host _).
  - destruct (materialize_shows host l (with_baseRef (Some (sha g)) patch) r
                (ui ++ [pickBase r]) σ) as [rest Hrest].
    exists (pickBase r :: rest). rewrite Hrest. by rewrite <- !app_assoc.
  - by exists [pickBase r].
Qed.

(** C4. With a patch designated by the committed context,
    [getUnreachablePatchCommit] always returns rather than throws, and:
    with no repository, the first thing it does is to show the repository
    picker, and a dismissed picker makes it return [undefined] with the
    patch untouched; with a repository but no base, the first thing it does
    is to show the base picker, and a dismissed picker makes it return
    [undefined] with the patch untouched; with both but no commit, when
    materializing the commit throws, it shows the error message, resets the
    base to unset and returns [undefined]. *)
Theorem getUnreachablePatchCommit_guards host σ l patch :
  commitTarget σ = inr l →
  heap σ !! l = Some (OPatch patch) →
  let run := getUnreachablePatchCommit host σ in
  (∃ result, run.1 = inr result)
  ∧ (repo patch = None →
       (∃ rest, shown run.2 = shown σ ++ pickRepository :: rest)
       ∧ (getRepositoryOrShowPicker host = None →
            run.1 = inr None
            ∧ shown run.2 = shown σ ++ [pickRepository]
            ∧ heap run.2 !! l = Some (OPatch patch)))
  ∧ (∀ r, repo patch = Some r → baseRef patch = None →
       (∃ rest, shown run.2 = shown σ ++ pickBase r :: rest)
       ∧ (showCommitPicker host (repo_uri r) = None →
            run.1 = inr None
            ∧ shown run.2 = shown σ ++ [pickBase r]
            ∧ heap run.2 !! l = Some (OPatch patch)))
  ∧ (∀ r base message,
       repo patch = Some r → baseRef patch = Some base → commit patch = None →
       createUnreachableCommitForPatch host (repo_uri r) (contents patch) base
         "PATCH" = inl message →
       run.1 = inr None
       ∧ shown run.2
         = shown σ ++ [ErrorMessage ("Unable preview the patch on base '" +:+ base
                                     +:+ "': " +:+ message)]
       ∧ heap run.2 !! l = Some (OPatch (with_baseRef None patch))).
Proof.
  intros Htarget Hpatch run. unfold run, getUnreachablePatchCommit.
  rewrite Htarget, Hpatch. split_and!.
  - destruct (repo patch); [apply selectBase_returns|].
    destruct (getRepositoryOrShowPicker host); [apply selectBase_returns|by eexists].
  - intros ->. split.
    + destruct (getRepositoryOrShowPicker host) as [pick|]; [|by exists []].
      destruct (selectBase_shows host l (with_repo pick patch) pick
                  [pickRepository] σ) as [rest ->]. by exists rest.
    + intros ->. apply leave_run.
  - intros r -> Hbase. unfold selectBase. rewrite Hbase. split.
    + destruct (showCommitPicker host _) as [pick|]; [|by exists []].
      destruct (materialize_shows host l (with_baseRef (Some (sha pick)) patch) r
                  ([] ++ [pickBase r]) σ) as [rest Hrest].
      exists rest. by rewrite Hrest.
    + intros ->. apply leave_run.
  - intros r base message -> Hbase Hcommit Hcreate.
    unfold selectBase, materialize. rewrite Hbase, Hcommit. simpl.
    rewrite Hcreate. apply leave_run.
Qed.

(** ** Concrete runs *)

Import ViewScenario.

Example last_writer_wins :
  let σ :=
    pendingUpdates [({[ "a" := VNum 1 ]}, false);
                    ({[ "a" := VNum 2; "b" := VNum 3 ]}, false)]
      (showing freshPatch) in
  let σ' := (notifyDidChangeState host false σ).2 in
  _context σ' !! "a" = Some (VNum 2)
  ∧ _context σ' !! "b" = Some (VNum 3)
  ∧ _context σ' !! "visible" = Some (VBool true)
  ∧ _pendingContext σ' = None
  ∧ length (notified σ') = 1%nat.
Proof. by split_and!. Qed.

Lemma getUnreachablePatchCommit_guards_witness :
  (getUnreachablePatchCommit host (showing freshPatch)).1 = inr None
  ∧ shown (getUnreachablePatchCommit host (showing freshPatch)).2 = [pickRepository]
  ∧ heap (getUnreachablePatchCommit host (showing freshPatch)).2 !! 2%nat
    = Some (OPatch freshPatch).
Proof.
  destruct (getUnreachablePatchCommit_guards host (showing freshPatch) 2 freshPatch
              eq_refl eq_refl) as (_ & Hrepo & _).
  destruct (Hrepo eq_refl) as [_ Hdismissed]. exact (Hdismissed eq_refl).
Defined.

Example getUnreachablePatchCommit_base_picker :
  let σ := showing (with_repo widgets freshPatch) in
  (getUnreachablePatchCommit host σ).1 = inr None
  ∧ shown (getUnreachablePatchCommit host σ).2 = [pickBase widgets].
Proof. split; reflexivity. Qed.

Example getUnreachablePatchCommit_materialization_fails :
  let patch := with_baseRef (Some "abc123") (with_repo widgets freshPatch) in
  let σ := showing patch in
  (getUnreachablePatchCommit host σ).1 = inr None
  ∧ shown (getUnreachablePatchCommit host σ).2
    = [ErrorMessage
         "Unable preview the patch on base 'abc123': patch does not apply"]
  ∧ heap (getUnreachablePatchCommit host σ).2 !! 2%nat
    = Some (OPatch (with_baseRef None patch)).
Proof. split_and!; reflexivity. Qed.





End PatchDetailsWebviewFacts.
